(** * Calculator expression trees (expr.py)

    A shallow embedding of the expression classes of [expr.py]: integer
    constants, the binary operators [Plus], [Minus], [Times], [Div], the
    unary operators [Neg] and [Abs], variables and assignments, together
    with the module-level dictionary [ENV] that variables read and
    assignments write.

    Python exceptions are values of [Exception]; a method that can raise
    returns an [Outcome].  Methods that read or write [ENV] live in the
    monad [M], which threads the dictionary through both normal returns and
    raised exceptions: a raise does not roll the dictionary back. *)

From Stdlib Require Import ZArith String Ascii Lia.
From Stdlib Require Import DecimalString DecimalPos DecimalZ.
From stdpp Require Import gmap strings.

Local Open Scope Z_scope.

(** ** Exceptions and outcomes *)

(** The exceptions the module can raise.  [NotImplementedError],
    [ZeroDivisionError], [AssertionError] and [AttributeError] are Python
    built-ins; [UndefinedVariable] is the class declared in the module.
    [AttributeError] records the attribute that was looked up. *)
Inductive Exception : Type :=
| NotImplementedError (msg : string)
| ZeroDivisionError
| AssertionError
| AttributeError (attr : string)
| UndefinedVariable (msg : string).

Inductive Outcome (A : Type) : Type :=
| Return (a : A)
| Raise (e : Exception).

Arguments Return {A} a.
Arguments Raise {A} e.

(** ** Expression objects *)

(** The concrete subclasses of [BinOp] and of [UnOp]; the class of a node
    selects its [_apply] method. *)
Inductive BinOpClass : Type := PlusCls | MinusCls | TimesCls | DivCls.
Inductive UnOpClass : Type := NegCls | AbsCls.

(** An object of each class with its instance attributes.  A binary node
    holds the four attributes stored by [_binop_init], a unary node the three
    stored by [_unop_init].  An [Assign] object holds a [Var] in [left]
    (the assertion of its constructor guarantees it); the node keeps that
    variable's [name]. *)
Inductive Expr : Type :=
| IntConst (value : Z)
| BinOpNode (cls : BinOpClass) (exp1 exp2 : Expr) (op_sym op_name : string)
| UnOpNode (cls : UnOpClass) (exp : Expr) (op_sym op_name : string)
| Var (name : string)
| AssignNode (left : string) (right : Expr).

(** ** Constructors ([__init__]) *)

Definition _binop_init (cls : BinOpClass) (exp1 exp2 : Expr)
    (op_sym op_name : string) : Expr :=
  BinOpNode cls exp1 exp2 op_sym op_name.

Definition _unop_init (cls : UnOpClass) (exp : Expr)
    (op_sym op_name : string) : Expr :=
  UnOpNode cls exp op_sym op_name.

(** [BinOp.__init__] and [UnOp.__init__]: the abstract classes refuse to be
    instantiated. *)
Definition BinOp (exp1 exp2 : Expr) : Outcome Expr :=
  Raise (NotImplementedError "Do not instantiate BinOP! (or else)").

Definition UnOp (exp : Expr) : Outcome Expr :=
  Raise (NotImplementedError "Do not instantiate UnOp! (don't do it please)").

Definition Plus (exp1 exp2 : Expr) : Expr := _binop_init PlusCls exp1 exp2 "+" "Plus".
Definition Minus (exp1 exp2 : Expr) : Expr := _binop_init MinusCls exp1 exp2 "-" "Minus".
Definition Times (exp1 exp2 : Expr) : Expr := _binop_init TimesCls exp1 exp2 "*" "Times".
Definition Div (exp1 exp2 : Expr) : Expr := _binop_init DivCls exp1 exp2 "/" "Div".

Definition Neg (exp : Expr) : Expr := _unop_init NegCls exp "~" "Neg".
Definition Abs (exp : Expr) : Expr := _unop_init AbsCls exp "@" "Abs".

(** [isinstance(e, Var)] *)
Definition isinstance_Var (e : Expr) : bool :=
  match e with
  | Var _ => true
  | _ => false
  end.

(** [Assign.__init__]: [assert isinstance(left, Var)], then store both
    attributes. *)
Definition Assign (left right : Expr) : Outcome Expr :=
  match left with
  | Var name => Return (AssignNode name right)
  | _ => Raise AssertionError
  end.

(** ** The environment monad *)

(** [ENV] maps a variable name to the [IntConst] bound to it.  An [IntConst]
    is never mutated and is determined by its [value], so the dictionary
    stores that integer, and [eval] returns it. *)
Definition M (A : Type) : Type :=
  gmap string Z -> Outcome A * gmap string Z.

Definition ret {A : Type} (a : A) : M A :=
  fun ENV => (Return a, ENV).

Definition raise {A : Type} (e : Exception) : M A :=
  fun ENV => (Raise e, ENV).

Definition lift {A : Type} (o : Outcome A) : M A :=
  fun ENV => (o, ENV).

Definition bind {A B : Type} (m : M A) (k : A -> M B) : M B :=
  fun ENV =>
    match m ENV with
    | (Return a, ENV') => k a ENV'
    | (Raise e, ENV') => (Raise e, ENV')
    end.

Notation "'let*' x ':=' m 'in' k" := (bind m (fun x => k))
  (at level 10, x name, m at level 100, k at level 200).

(** [env_clear]: rebind [ENV] to an empty dictionary. *)
Definition env_clear : M unit :=
  fun _ => (Return tt, ∅).

(** ** Integer operations *)

(** Python's [val1 // val2] on integers: floor division, raising on a zero
    divisor.  [Z.div] rounds toward negative infinity as [//] does. *)
Definition floordiv (val1 val2 : Z) : Outcome Z :=
  if Z.eqb val2 0 then Raise ZeroDivisionError else Return (Z.div val1 val2).

(** [_apply] of the four binary classes. *)
Definition BinOp_apply (cls : BinOpClass) (val1 val2 : Z) : Outcome Z :=
  match cls with
  | PlusCls => Return (val1 + val2)
  | MinusCls => Return (val1 - val2)
  | TimesCls => Return (val1 * val2)
  | DivCls => floordiv val1 val2
  end.

(** [_apply] of the two unary classes. *)
Definition UnOp_apply (cls : UnOpClass) (val : Z) : Z :=
  match cls with
  | NegCls => - val
  | AbsCls => Z.abs val
  end.

(** ** Variables *)

(** Reading a data attribute of a [Var] object: the only one is [name]. *)
Definition Var_getattr (name attr : string) : Outcome string :=
  if String.eqb attr "name" then Return name else Raise (AttributeError attr).

(** [Var.eval].  On a missing binding the message of the exception is
    built first, from [self.Name]; the [raise] comes after it. *)
Definition Var_eval (name : string) : M Z :=
  fun ENV =>
    match ENV !! name with
    | Some v => (Return v, ENV)
    | None =>
        (let* n := lift (Var_getattr name "Name") in
         raise (UndefinedVariable (n +:+ " has not been assigned a value!"))) ENV
    end.

(** [Var.assign]: [ENV[self.name] = val]. *)
Definition Var_assign (name : string) (val : Z) : M unit :=
  fun ENV => (Return tt, <[name := val]> ENV).

(** ** Evaluation *)

Fixpoint eval (self : Expr) : M Z :=
  match self with
  | IntConst value => ret value
  | BinOpNode cls exp1 exp2 _ _ =>
      let* exp1_val := eval exp1 in
      let* exp2_val := eval exp2 in
      lift (BinOp_apply cls exp1_val exp2_val)
  | UnOpNode cls exp _ _ =>
      let* exp_val := eval exp in
      ret (UnOp_apply cls exp_val)
  | Var name => Var_eval name
  | AssignNode left_name right_exp =>
      let* r_val := eval right_exp in
      let* _ := Var_assign left_name r_val in
      ret r_val
  end.

(** ** Text *)

(** [str] of a Python integer: decimal digits, with a leading minus sign
    for a negative one. *)
Definition str_int (n : Z) : string :=
  NilZero.string_of_int (Z.to_int n).

(** The integer a decimal numeral denotes (the reading inverse to
    [str_int]); used to state that a constant prints as its value. *)
Definition int_of_decimal (s : string) : option Z :=
  option_map Z.of_int (NilZero.int_of_string s).

(** [__str__] *)
Fixpoint str (self : Expr) : string :=
  match self with
  | IntConst value => str_int value
  | BinOpNode _ exp1 exp2 op_sym _ =>
      "(" +:+ str exp1 +:+ " " +:+ op_sym +:+ " " +:+ str exp2 +:+ ")"
  | UnOpNode _ exp op_sym _ => op_sym +:+ " " +:+ str exp
  | Var name => name
  | AssignNode left_name right_exp => left_name +:+ " = " +:+ str right_exp
  end.

(** [Var.__repr__] *)
Definition Var_repr (name : string) : string :=
  "Var(" +:+ name +:+ ")".

(** [__repr__]; an [Assign] calls [repr] on the [Var] it holds. *)
Fixpoint repr (self : Expr) : string :=
  match self with
  | IntConst value => "IntConst(" +:+ str_int value +:+ ")"
  | BinOpNode _ exp1 exp2 _ op_name =>
      op_name +:+ "(" +:+ repr exp1 +:+ ", " +:+ repr exp2 +:+ ")"
  | UnOpNode _ exp _ op_name => op_name +:+ "(" +:+ repr exp +:+ ")"
  | Var name => Var_repr name
  | AssignNode left_name right_exp =>
      "Assign(" +:+ Var_repr left_name +:+ ", " +:+ repr right_exp +:+ ")"
  end.

(** ** Equality ([__eq__]) *)

(** [IntConst.__eq__]: [self.value == other.value]; only an [IntConst] has
    the attribute [value]. *)
Definition IntConst_eq (value : Z) (other : Expr) : Outcome bool :=
  match other with
  | IntConst value' => Return (Z.eqb value value')
  | _ => Raise (AttributeError "value")
  end.

(** [Expr.__eq__]: [self.eval() == other.eval()], a comparison of two
    [IntConst] results. *)
Definition Expr_eq (self other : Expr) : M bool :=
  let* a := eval self in
  let* b := eval other in
  lift (IntConst_eq a (IntConst b)).

(** [self == other]: the class of the left operand selects the method;
    [IntConst] overrides the one inherited from [Expr]. *)
Definition eq_op (self other : Expr) : M bool :=
  match self with
  | IntConst value => lift (IntConst_eq value other)
  | _ => Expr_eq self other
  end.

(** ** Syntactic side conditions *)

(** No [Assign] node anywhere in the tree. *)
Fixpoint assign_free (e : Expr) : bool :=
  match e with
  | IntConst _ | Var _ => true
  | BinOpNode _ exp1 exp2 _ _ => assign_free exp1 && assign_free exp2
  | UnOpNode _ exp _ _ => assign_free exp
  | AssignNode _ _ => false
  end.

(** The names read by the [Var] nodes of a tree. *)
Fixpoint vars (e : Expr) : list string :=
  match e with
  | IntConst _ => []
  | BinOpNode _ exp1 exp2 _ _ => vars exp1 ++ vars exp2
  | UnOpNode _ exp _ _ => vars exp
  | Var name => [name]
  | AssignNode _ right_exp => vars right_exp
  end.

(** The names bound by the [Assign] nodes of a tree. *)
Fixpoint targets (e : Expr) : list string :=
  match e with
  | IntConst _ | Var _ => []
  | BinOpNode _ exp1 exp2 _ _ => targets exp1 ++ targets exp2
  | UnOpNode _ exp _ _ => targets exp
  | AssignNode left_name right_exp => left_name :: targets right_exp
  end.

(** No [Var] node anywhere in the tree. *)
Fixpoint var_free (e : Expr) : bool :=
  match e with
  | IntConst _ => true
  | BinOpNode _ exp1 exp2 _ _ => var_free exp1 && var_free exp2
  | UnOpNode _ exp _ _ => var_free exp
  | Var _ => false
  | AssignNode _ right_exp => var_free right_exp
  end.

(** No node of class [Div] anywhere in the tree. *)
Fixpoint div_free (e : Expr) : bool :=
  match e with
  | IntConst _ | Var _ => true
  | BinOpNode cls exp1 exp2 _ _ =>
      match cls with DivCls => false | _ => div_free exp1 && div_free exp2 end
  | UnOpNode _ exp _ _ => div_free exp
  | AssignNode _ right_exp => div_free right_exp
  end.

(** ** Addition of constants ([IntConst.__add__]) *)

(** [self + other] for an [IntConst] [self]: a new [IntConst] holding
    [self.value + other.value]. *)
Definition IntConst_add (value : Z) (other : Expr) : Outcome Expr :=
  match other with
  | IntConst value' => Return (IntConst (value + value'))
  | _ => Raise (AttributeError "value")
  end.

(** ** Measures on trees and texts *)

(** Occurrences of a character in a string. *)
Fixpoint count_char (c : ascii) (s : string) : nat :=
  match s with
  | EmptyString => O
  | String a s' => (if Ascii.eqb c a then 1 else 0) + count_char c s'
  end.

(** The number of binary nodes of a tree. *)
Fixpoint binops (e : Expr) : nat :=
  match e with
  | IntConst _ | Var _ => O
  | BinOpNode _ exp1 exp2 _ _ => S (binops exp1 + binops exp2)
  | UnOpNode _ exp _ _ => binops exp
  | AssignNode _ right_exp => binops right_exp
  end.

(** The number of objects a tree is made of, the [Var] held by an
    [Assign] included. *)
Fixpoint objects (e : Expr) : nat :=
  match e with
  | IntConst _ | Var _ => 1
  | BinOpNode _ exp1 exp2 _ _ => S (objects exp1 + objects exp2)
  | UnOpNode _ exp _ _ => S (objects exp)
  | AssignNode _ right_exp => S (S (objects right_exp))
  end.

(** The symbol and the name each concrete constructor passes to
    [_binop_init] or [_unop_init]. *)
Definition BinOp_strings (cls : BinOpClass) : string * string :=
  match cls with
  | PlusCls => ("+", "Plus")
  | MinusCls => ("-", "Minus")
  | TimesCls => ("*", "Times")
  | DivCls => ("/", "Div")
  end.

Definition UnOp_strings (cls : UnOpClass) : string * string :=
  match cls with
  | NegCls => ("~", "Neg")
  | AbsCls => ("@", "Abs")
  end.

(** A tree all of whose operator nodes carry the strings of their class,
    as every tree built with [Plus], [Minus], [Times], [Div], [Neg] and
    [Abs] does. *)
Fixpoint constructed (e : Expr) : bool :=
  match e with
  | IntConst _ | Var _ => true
  | BinOpNode cls exp1 exp2 op_sym op_name =>
      String.eqb op_sym (BinOp_strings cls).1
      && String.eqb op_name (BinOp_strings cls).2
      && constructed exp1 && constructed exp2
  | UnOpNode cls exp op_sym op_name =>
      String.eqb op_sym (UnOp_strings cls).1
      && String.eqb op_name (UnOp_strings cls).2
      && constructed exp
  | AssignNode _ right_exp => constructed right_exp
  end.

(** No parenthesis in the name of any variable of the tree. *)
Definition plain (name : string) : bool :=
  Nat.eqb (count_char "(" name) 0 && Nat.eqb (count_char ")" name) 0.

Fixpoint plain_names (e : Expr) : bool :=
  match e with
  | IntConst _ => true
  | BinOpNode _ exp1 exp2 _ _ => plain_names exp1 && plain_names exp2
  | UnOpNode _ exp _ _ => plain_names exp
  | Var name => plain name
  | AssignNode left_name right_exp => plain left_name && plain_names right_exp
  end.

(** Reading a text from left to right with the number of parentheses
    open so far: ["("] opens one, [")"] closes one and fails when none is
    open. *)
Fixpoint scan (depth : nat) (s : string) : option nat :=
  match s with
  | EmptyString => Some depth
  | String a s' =>
      if Ascii.eqb "(" a then scan (S depth) s'
      else if Ascii.eqb ")" a then
        match depth with
        | O => None
        | S d => scan d s'
        end
      else scan depth s'
  end.

(** Every [")"] closes an earlier ["("] and none is left open. *)
Definition balanced (s : string) : bool :=
  match scan 0 s with
  | Some O => true
  | _ => false
  end.

(** * Properties *)

(** ** The monad *)

Section monad_facts.
Context {A B : Type}.
Implicit Types (m : M A) (k : A -> M B) (ENV : gmap string Z).

Lemma bind_Return m k ENV a ENV' :
  m ENV = (Return a, ENV') -> bind m k ENV = k a ENV'.
Proof. intros Hm. unfold bind. now rewrite Hm. Qed.

Lemma bind_Raise m k ENV e ENV' :
  m ENV = (Raise e, ENV') -> bind m k ENV = (Raise e, ENV').
Proof. intros Hm. unfold bind. now rewrite Hm. Qed.

End monad_facts.

(** ** Variables *)

Lemma Var_eval_bound name v (ENV : gmap string Z) :
  ENV !! name = Some v -> Var_eval name ENV = (Return v, ENV).
Proof. intros H. unfold Var_eval. now rewrite H. Qed.

(** [Var] has no attribute [Name], whatever the variable is called: the
    lookup made while the message is built raises before the [raise]
    statement runs. *)
Lemma Var_eval_unbound name (ENV : gmap string Z) :
  ENV !! name = None ->
  Var_eval name ENV = (Raise (AttributeError "Name"), ENV).
Proof. intros H. unfold Var_eval. now rewrite H. Qed.

(** ** Evaluation and the environment *)

Lemma eval_BinOpNode_Return cls exp1 exp2 sym nm ENV v1 ENV1 v2 ENV2 :
  eval exp1 ENV = (Return v1, ENV1) ->
  eval exp2 ENV1 = (Return v2, ENV2) ->
  eval (BinOpNode cls exp1 exp2 sym nm) ENV = (BinOp_apply cls v1 v2, ENV2).
Proof.
  intros H1 H2. simpl.
  rewrite (bind_Return _ _ _ _ _ H1).
  now rewrite (bind_Return _ _ _ _ _ H2).
Qed.

Lemma eval_BinOpNode_Raise_left cls exp1 exp2 sym nm ENV e ENV1 :
  eval exp1 ENV = (Raise e, ENV1) ->
  eval (BinOpNode cls exp1 exp2 sym nm) ENV = (Raise e, ENV1).
Proof. intros H1. simpl. now apply bind_Raise. Qed.

Lemma eval_BinOpNode_Raise_right cls exp1 exp2 sym nm ENV v1 ENV1 e ENV2 :
  eval exp1 ENV = (Return v1, ENV1) ->
  eval exp2 ENV1 = (Raise e, ENV2) ->
  eval (BinOpNode cls exp1 exp2 sym nm) ENV = (Raise e, ENV2).
Proof.
  intros H1 H2. simpl.
  rewrite (bind_Return _ _ _ _ _ H1).
  now apply bind_Raise.
Qed.

Lemma eval_AssignNode_Return x e ENV v ENV1 :
  eval e ENV = (Return v, ENV1) ->
  eval (AssignNode x e) ENV = (Return v, <[x := v]> ENV1).
Proof. intros H. simpl. now rewrite (bind_Return _ _ _ _ _ H). Qed.

Lemma eval_AssignNode_Raise x e ENV err ENV1 :
  eval e ENV = (Raise err, ENV1) ->
  eval (AssignNode x e) ENV = (Raise err, ENV1).
Proof. intros H. simpl. now apply bind_Raise. Qed.

(** Only an [Assign] writes [ENV]: a tree without one leaves it as it
    was, whether evaluation returns or raises. *)
Lemma eval_assign_free e :
  assign_free e = true -> forall ENV, (eval e ENV).2 = ENV.
Proof.
  induction e as [value|cls e1 IH1 e2 IH2 sym nm|cls e IH sym nm|name|x e IH];
    simpl; intros Hfree ENV.
  - reflexivity.
  - apply andb_prop in Hfree as [Hf1 Hf2].
    specialize (IH1 Hf1 ENV). unfold bind.
    destruct (eval e1 ENV) as [[v1|err] ENV1]; simpl in IH1; subst ENV1;
      [|reflexivity].
    specialize (IH2 Hf2 ENV).
    destruct (eval e2 ENV) as [[v2|err] ENV2]; simpl in IH2; subst ENV2;
      reflexivity.
  - specialize (IH Hfree ENV). unfold bind.
    destruct (eval e ENV) as [[v|err] ENV1]; simpl in IH; subst ENV1;
      reflexivity.
  - unfold Var_eval. destruct (ENV !! name); reflexivity.
  - discriminate.
Qed.

(** ** Floor division *)

(** The quotient of [floordiv] is the floor of the rational quotient: the
    remainder has the sign of the divisor. *)
Lemma floordiv_floor a b :
  b <> 0 ->
  floordiv a b = Return (Z.div a b) /\
  (0 < b -> b * Z.div a b <= a < b * Z.div a b + b) /\
  (b < 0 -> b * Z.div a b + b < a <= b * Z.div a b).
Proof.
  intros Hb. split; [|split].
  - unfold floordiv. destruct (Z.eqb_spec b 0); [contradiction|reflexivity].
  - intros Hpos. pose proof (Z.div_mod a b Hb) as Hdm.
    pose proof (Z.mod_pos_bound a b Hpos). lia.
  - intros Hneg. pose proof (Z.div_mod a b Hb) as Hdm.
    pose proof (Z.mod_neg_bound a b Hneg). lia.
Qed.

(** ** Decimal text *)

Lemma str_int_decimal n : int_of_decimal (str_int n) = Some n.
Proof.
  unfold int_of_decimal, str_int.
  rewrite NilZero.isi.
  - simpl. f_equal. apply DecimalZ.of_to.
  - destruct n as [|p|p]; simpl; try discriminate.
    intros [= Hp]. now apply (Unsigned.to_uint_nonnil p).
  - destruct n as [|p|p]; simpl; try discriminate.
    intros [= Hp]. now apply (Unsigned.to_uint_nonnil p).
Qed.

(** * The claims *)

(** ** Undefined variables *)

(** C1 (the code departs from the claim).  Evaluating a [Var] whose name
    has no binding does not raise [UndefinedVariable]: whatever the name
    and the environment, it raises [AttributeError] for the attribute
    [Name], which is read to build the message of the intended exception.
    The environment is left as it was. *)
Theorem Var_eval_unbound_raises_AttributeError name (ENV : gmap string Z) :
  ENV !! name = None ->
  eval (Var name) ENV = (Raise (AttributeError "Name"), ENV) /\
  (forall msg, (eval (Var name) ENV).1 <> Raise (UndefinedVariable msg)).
Proof.
  intros Hunbound. simpl. rewrite (Var_eval_unbound _ _ Hunbound).
  split; [reflexivity|]. intros msg. discriminate.
Qed.

(** The failing input of C1: [Var("y").eval()] in a fresh environment. *)
Lemma Var_eval_unbound_raises_AttributeError_witness :
  (∅ : gmap string Z) !! "y"%string = None /\
  eval (Var "y") ∅ = (Raise (AttributeError "Name"), ∅).
Proof.
  split; [reflexivity|].
  apply (Var_eval_unbound_raises_AttributeError "y" ∅). reflexivity.
Defined.

(** The same after [env_clear], whatever was bound before. *)
Example Var_eval_after_env_clear (ENV : gmap string Z) :
  (let* _ := env_clear in eval (Var "y")) ENV
  = (Raise (AttributeError "Name"), ∅).
Proof. reflexivity. Qed.

(** ** Arithmetic on constants *)

(** C2.  On two integer constants [Plus] evaluates to the sum, [Minus] to
    the difference, [Times] to the product and, for a divisor other than
    zero, [Div] to the floor quotient (the quotient whose remainder has the
    divisor's sign); [Neg] evaluates to the negation and [Abs] to the
    absolute value.  All are unbounded integers, and the environment is
    untouched. *)
Theorem eval_operators_on_constants (a b : Z) (ENV : gmap string Z) :
  eval (Plus (IntConst a) (IntConst b)) ENV = (Return (a + b), ENV) /\
  eval (Minus (IntConst a) (IntConst b)) ENV = (Return (a - b), ENV) /\
  eval (Times (IntConst a) (IntConst b)) ENV = (Return (a * b), ENV) /\
  (b <> 0 ->
   eval (Div (IntConst a) (IntConst b)) ENV = (Return (Z.div a b), ENV) /\
   (0 < b -> b * Z.div a b <= a < b * Z.div a b + b) /\
   (b < 0 -> b * Z.div a b + b < a <= b * Z.div a b)) /\
  eval (Neg (IntConst a)) ENV = (Return (- a), ENV) /\
  eval (Abs (IntConst a)) ENV = (Return (Z.abs a), ENV).
Proof.
  split; [reflexivity|]. split; [reflexivity|]. split; [reflexivity|].
  split; [|split; reflexivity].
  intros Hb. destruct (floordiv_floor a b Hb) as (Hq & Hfloor).
  split; [|exact Hfloor].
  cbn. unfold bind, ret, lift. cbn. now rewrite Hq.
Qed.

Lemma eval_operators_on_constants_witness :
  (-2) <> 0 /\
  eval (Div (IntConst 7) (IntConst (-2))) ∅ = (Return (-4), ∅).
Proof.
  split; [lia|].
  destruct (eval_operators_on_constants 7 (-2) ∅) as (_ & _ & _ & Hdiv & _).
  apply Hdiv. lia.
Defined.

(** ** Division by zero *)

(** C3, as stated, fails.  With a left operand that raises, the division
    raises the left operand's exception, not [ZeroDivisionError]; and with a
    left operand that rebinds the variable the divisor reads, a divisor
    that evaluates to 0 on its own no longer does so inside the division,
    which then returns. *)
Lemma Div_zero_divisor_counterexample :
  (eval (IntConst 0) ∅ = (Return 0, ∅) /\
   eval (Div (Var "y") (IntConst 0)) ∅ = (Raise (AttributeError "Name"), ∅)) /\
  (eval (Var "y") {[ "y"%string := 0 ]} = (Return 0, {[ "y"%string := 0 ]}) /\
   eval (Div (AssignNode "y" (IntConst 1)) (Var "y")) {[ "y"%string := 0 ]}
   = (Return 1, {[ "y"%string := 1 ]})).
Proof. repeat split; reflexivity. Qed.

(** C3 (amended).  When the left operand [x] evaluates successfully and the
    right operand [e] evaluates to 0 in the environment [x] leaves behind,
    [Div(x, e).eval()] raises [ZeroDivisionError] (the spec's
    DivisionByZeroError); in particular [Div(IntConst(7), IntConst(0))]
    does, in every environment. *)
Theorem Div_zero_divisor_raises :
  (forall x e (ENV ENV1 ENV2 : gmap string Z) v1,
      eval x ENV = (Return v1, ENV1) ->
      eval e ENV1 = (Return 0, ENV2) ->
      eval (Div x e) ENV = (Raise ZeroDivisionError, ENV2)) /\
  (forall ENV : gmap string Z,
      eval (Div (IntConst 7) (IntConst 0)) ENV = (Raise ZeroDivisionError, ENV)).
Proof.
  split.
  - intros x e ENV ENV1 ENV2 v1 Hx He.
    unfold Div, _binop_init.
    now rewrite (eval_BinOpNode_Return _ _ _ _ _ _ _ _ _ _ Hx He).
  - reflexivity.
Qed.

Lemma Div_zero_divisor_raises_witness :
  eval (Var "a") {[ "a"%string := 3 ]} = (Return 3, {[ "a"%string := 3 ]}) /\
  eval (Minus (Var "a") (IntConst 3)) {[ "a"%string := 3 ]}
  = (Return 0, {[ "a"%string := 3 ]}) /\
  eval (Div (Var "a") (Minus (Var "a") (IntConst 3))) {[ "a"%string := 3 ]}
  = (Raise ZeroDivisionError, {[ "a"%string := 3 ]}).
Proof.
  split; [reflexivity|]. split; [reflexivity|].
  apply (proj1 Div_zero_divisor_raises (Var "a") (Minus (Var "a") (IntConst 3))
           {[ "a"%string := 3 ]} {[ "a"%string := 3 ]} {[ "a"%string := 3 ]} 3);
    reflexivity.
Defined.

(** ** Construction *)

(** C4.  [Assign(left, right)] with a [left] that is not a [Var] raises
    [AssertionError] (the spec's TypeMismatchError) from the constructor
    itself: no object is built and nothing is evaluated, since the
    constructor neither reads nor writes the environment. *)
Theorem Assign_non_Var_raises (left right : Expr) :
  isinstance_Var left = false ->
  Assign left right = Raise AssertionError.
Proof. intros Hleft. destruct left; try reflexivity. discriminate. Qed.

Lemma Assign_non_Var_raises_witness :
  isinstance_Var (IntConst 1) = false /\
  Assign (IntConst 1) (IntConst 2) = Raise AssertionError.
Proof.
  split; [reflexivity|].
  apply (Assign_non_Var_raises (IntConst 1) (IntConst 2)). reflexivity.
Defined.

(** With a [Var] on the left the constructor succeeds. *)
Lemma Assign_Var name right : Assign (Var name) right = Return (AssignNode name right).
Proof. reflexivity. Qed.

(** C5.  The constructors of the abstract classes [BinOp] and [UnOp] raise
    [NotImplementedError] (the spec's InvalidConstructionError) for every
    choice of operands. *)
Theorem abstract_constructors_raise :
  (forall exp1 exp2, exists msg, BinOp exp1 exp2 = Raise (NotImplementedError msg)) /\
  (forall exp, exists msg, UnOp exp = Raise (NotImplementedError msg)).
Proof. split; intros; eexists; reflexivity. Qed.

(** ** Assignment *)

(** C6.  When [e] evaluates successfully to [v], [Assign(Var(x), e)] is
    constructed, and evaluating it returns [v] and leaves [x] bound to [v]
    in the environment [e] produced; a following [Var(x).eval()] returns
    [v] and changes nothing. *)
Theorem Assign_eval_binds x e (ENV ENV1 : gmap string Z) v :
  eval e ENV = (Return v, ENV1) ->
  exists a ENV2,
    Assign (Var x) e = Return a /\
    eval a ENV = (Return v, ENV2) /\
    ENV2 = <[x := v]> ENV1 /\
    eval (Var x) ENV2 = (Return v, ENV2).
Proof.
  intros He. exists (AssignNode x e), (<[x := v]> ENV1).
  split; [apply Assign_Var|].
  split; [now apply eval_AssignNode_Return|].
  split; [reflexivity|].
  simpl. apply Var_eval_bound, lookup_insert_eq.
Qed.

Lemma Assign_eval_binds_witness :
  eval (IntConst 10) ∅ = (Return 10, ∅) /\
  exists a ENV2,
    Assign (Var "x") (IntConst 10) = Return a /\
    eval a ∅ = (Return 10, ENV2) /\
    ENV2 = <["x"%string := 10]> ∅ /\
    eval (Var "x") ENV2 = (Return 10, ENV2).
Proof.
  split; [reflexivity|].
  apply (Assign_eval_binds "x" (IntConst 10) ∅ ∅ 10). reflexivity.
Defined.

(** ** Equality *)

(** [Expr.__eq__] compares results: when both sides evaluate, left first,
    the answer is whether the two values are equal. *)
Lemma Expr_eq_values self other (ENV ENV1 ENV2 : gmap string Z) v1 v2 :
  eval self ENV = (Return v1, ENV1) ->
  eval other ENV1 = (Return v2, ENV2) ->
  Expr_eq self other ENV = (Return (Z.eqb v1 v2), ENV2).
Proof.
  intros H1 H2. unfold Expr_eq.
  rewrite (bind_Return _ _ _ _ _ H1).
  now rewrite (bind_Return _ _ _ _ _ H2).
Qed.

(** So [==] is result-based whenever the left operand is not an
    [IntConst] ... *)
Lemma eq_op_non_IntConst self other (ENV ENV1 ENV2 : gmap string Z) v1 v2 :
  (forall value, self <> IntConst value) ->
  eval self ENV = (Return v1, ENV1) ->
  eval other ENV1 = (Return v2, ENV2) ->
  eq_op self other ENV = (Return (Z.eqb v1 v2), ENV2).
Proof.
  intros Hself H1 H2.
  destruct self as [value| | | |]; try (now apply Expr_eq_values with ENV1).
  now destruct (Hself value).
Qed.

(** ... and between two [IntConst]s ... *)
Lemma eq_op_IntConst_IntConst a b (ENV : gmap string Z) :
  eq_op (IntConst a) (IntConst b) ENV = (Return (Z.eqb a b), ENV).
Proof. reflexivity. Qed.

(** ... but [IntConst.__eq__] reads [other.value] without evaluating
    [other], and no other class has that attribute. *)
Lemma eq_op_IntConst_other a other (ENV : gmap string Z) :
  (forall value, other <> IntConst value) ->
  eq_op (IntConst a) other ENV = (Raise (AttributeError "value"), ENV).
Proof.
  intros Hother. destruct other as [value| | | |]; try reflexivity.
  now destruct (Hother value).
Qed.

(** C7 (the code departs from the claim).  [IntConst(4) ==
    Plus(IntConst(2), IntConst(2))] is not true: it raises
    [AttributeError] for the attribute [value], in every environment,
    although both sides evaluate to 4.  The same comparison with the
    operands swapped goes through [Expr.__eq__] and is true. *)
Theorem IntConst_eq_Plus_raises (ENV : gmap string Z) :
  eval (IntConst 4) ENV = (Return 4, ENV) /\
  eval (Plus (IntConst 2) (IntConst 2)) ENV = (Return 4, ENV) /\
  eq_op (IntConst 4) (Plus (IntConst 2) (IntConst 2)) ENV
  = (Raise (AttributeError "value"), ENV) /\
  eq_op (Plus (IntConst 2) (IntConst 2)) (IntConst 4) ENV = (Return true, ENV).
Proof. repeat split; reflexivity. Qed.

(** ** Text *)

(** C8.  [__str__] follows the grammar at every node: a binary operation
    prints as its operands' texts around its symbol, inside parentheses; a
    unary operation as its symbol, a space and its operand's text, with no
    parentheses; a constant as the decimal numeral of its value; a variable
    as its name; an assignment as the target's name, [" = "] and the text
    of the right-hand side.  The concrete classes carry the symbols
    [+ - * /] and [~ @].  [__repr__] prints the class name applied to the
    [repr] of the children, a variable as [Var(] its name [)] and an
    assignment as [Assign(Var(name), ...)].  In particular [Plus(IntConst(5), IntConst(4))]
    prints as ["(5 + 4)"] and as ["Plus(IntConst(5), IntConst(4))"]. *)
Theorem str_repr_grammar :
  (forall cls exp1 exp2 sym nm,
      str (BinOpNode cls exp1 exp2 sym nm)
      = "(" +:+ str exp1 +:+ " " +:+ sym +:+ " " +:+ str exp2 +:+ ")") /\
  (forall exp1 exp2,
      str (Plus exp1 exp2) = "(" +:+ str exp1 +:+ " + " +:+ str exp2 +:+ ")" /\
      str (Minus exp1 exp2) = "(" +:+ str exp1 +:+ " - " +:+ str exp2 +:+ ")" /\
      str (Times exp1 exp2) = "(" +:+ str exp1 +:+ " * " +:+ str exp2 +:+ ")" /\
      str (Div exp1 exp2) = "(" +:+ str exp1 +:+ " / " +:+ str exp2 +:+ ")") /\
  (forall cls exp sym nm, str (UnOpNode cls exp sym nm) = sym +:+ " " +:+ str exp) /\
  (forall exp, str (Neg exp) = "~ " +:+ str exp /\ str (Abs exp) = "@ " +:+ str exp) /\
  (forall value, str (IntConst value) = str_int value /\
                 int_of_decimal (str (IntConst value)) = Some value) /\
  (forall name, str (Var name) = name) /\
  (forall name right,
      Assign (Var name) right = Return (AssignNode name right) /\
      str (AssignNode name right) = name +:+ " = " +:+ str right) /\
  (forall exp1 exp2,
      repr (Plus exp1 exp2) = "Plus(" +:+ repr exp1 +:+ ", " +:+ repr exp2 +:+ ")" /\
      repr (Minus exp1 exp2) = "Minus(" +:+ repr exp1 +:+ ", " +:+ repr exp2 +:+ ")" /\
      repr (Times exp1 exp2) = "Times(" +:+ repr exp1 +:+ ", " +:+ repr exp2 +:+ ")" /\
      repr (Div exp1 exp2) = "Div(" +:+ repr exp1 +:+ ", " +:+ repr exp2 +:+ ")") /\
  (forall exp, repr (Neg exp) = "Neg(" +:+ repr exp +:+ ")" /\
               repr (Abs exp) = "Abs(" +:+ repr exp +:+ ")") /\
  (forall value, repr (IntConst value) = "IntConst(" +:+ str_int value +:+ ")") /\
  (forall name right,
      repr (AssignNode name right)
      = "Assign(" +:+ repr (Var name) +:+ ", " +:+ repr right +:+ ")") /\
  str (Plus (IntConst 5) (IntConst 4)) = "(5 + 4)"%string /\
  repr (Plus (IntConst 5) (IntConst 4)) = "Plus(IntConst(5), IntConst(4))"%string /\
  (forall name, repr (Var name) = "Var(" +:+ name +:+ ")") /\
  (forall name right,
      repr (AssignNode name right)
      = "Assign(" +:+ ("Var(" +:+ name +:+ ")") +:+ ", " +:+ repr right +:+ ")") /\
  (forall cls exp1 exp2 sym nm,
      repr (BinOpNode cls exp1 exp2 sym nm)
      = nm +:+ "(" +:+ repr exp1 +:+ ", " +:+ repr exp2 +:+ ")") /\
  (forall cls exp sym nm,
      repr (UnOpNode cls exp sym nm) = nm +:+ "(" +:+ repr exp +:+ ")") /\
  repr (Var "x") = "Var(x)"%string /\
  repr (AssignNode "x" (Neg (Var "y"))) = "Assign(Var(x), Neg(Var(y)))"%string.
Proof.
  repeat match goal with |- _ /\ _ => split end; try reflexivity.
  - intros exp1 exp2. repeat split.
  - intros exp. split; reflexivity.
  - intros value. split; [reflexivity|]. simpl. apply str_int_decimal.
  - intros name right. split; reflexivity.
  - intros exp1 exp2. repeat split.
  - intros exp. split; reflexivity.
Qed.

(** Some renderings, negative constants and nesting included. *)
Example str_nested :
  str (Times (Neg (IntConst (-3))) (Minus (Var "x") (Abs (IntConst 0))))
  = "(~ -3 * (x - @ 0))"%string.
Proof. reflexivity. Qed.

Example repr_nested :
  repr (AssignNode "x" (Div (Var "y") (Neg (IntConst 12))))
  = "Assign(Var(x), Div(Var(y), Neg(IntConst(12))))"%string.
Proof. reflexivity. Qed.

(** ** Assignments that raise *)

(** C9, as stated, fails.  The right-hand side can bind variables before it
    raises, and those bindings stay: here the right-hand side binds the
    target itself and then divides by zero, so the assignment raises with
    the target bound in an environment that was empty. *)
Lemma Assign_raise_counterexample :
  eval (AssignNode "x"
          (Plus (AssignNode "x" (IntConst 1)) (Div (IntConst 1) (IntConst 0)))) ∅
  = (Raise ZeroDivisionError, {[ "x"%string := 1 ]}) /\
  ({[ "x"%string := 1 ]} : gmap string Z) <> ∅ /\
  ({[ "x"%string := 1 ]} : gmap string Z) !! "x"%string = Some 1.
Proof.
  split; [reflexivity|]. split; [|reflexivity].
  intros Heq. apply (f_equal (fun m : gmap string Z => m !! "x"%string)) in Heq.
  discriminate Heq.
Qed.

(** C9 (amended).  When the right-hand side of an assignment raises, the
    assignment raises the same exception and makes no binding of its own:
    the environment is the one the right-hand side left.  If moreover the
    right-hand side contains no assignment, that environment is the initial
    one, so the target has the binding, or the lack of one, it had
    before. *)
Theorem Assign_raise_no_binding x e (ENV ENV1 : gmap string Z) err :
  eval e ENV = (Raise err, ENV1) ->
  eval (AssignNode x e) ENV = (Raise err, ENV1) /\
  (assign_free e = true -> ENV1 = ENV /\ ENV1 !! x = ENV !! x).
Proof.
  intros He. split; [now apply eval_AssignNode_Raise|].
  intros Hfree. pose proof (eval_assign_free e Hfree ENV) as Henv.
  rewrite He in Henv. simpl in Henv. now subst ENV1.
Qed.

Lemma Assign_raise_no_binding_witness :
  eval (Div (IntConst 1) (IntConst 0)) ∅ = (Raise ZeroDivisionError, ∅) /\
  eval (AssignNode "x" (Div (IntConst 1) (IntConst 0))) ∅
  = (Raise ZeroDivisionError, ∅).
Proof.
  split; [reflexivity|].
  apply (Assign_raise_no_binding "x" (Div (IntConst 1) (IntConst 0)) ∅ ∅).
  reflexivity.
Defined.

(** ** Order of evaluation *)

(** The example of C10 in an arbitrary environment. *)
Lemma Plus_Assign_then_Var (ENV : gmap string Z) :
  eval (Plus (AssignNode "x" (IntConst 1)) (Var "x")) ENV
  = (Return 2, <["x"%string := 1]> ENV).
Proof.
  unfold Plus, _binop_init.
  rewrite (eval_BinOpNode_Return PlusCls _ _ _ _ ENV 1 (<["x"%string := 1]> ENV)
             1 (<["x"%string := 1]> ENV)); try reflexivity.
  simpl. apply Var_eval_bound, lookup_insert_eq.
Qed.

(** C10.  A binary operation evaluates its left operand first and its right
    operand in the environment the left one leaves: if the left operand
    raises, the operation raises the same exception and the right operand
    is not evaluated; otherwise the right operand is evaluated from the
    left operand's final environment, and its exception or the operator's
    result is the outcome.  So [Plus(Assign(Var("x"), IntConst(1)),
    Var("x"))] evaluates to 2 in every environment. *)
Theorem BinOp_eval_left_to_right :
  (forall cls exp1 exp2 sym nm (ENV ENV1 : gmap string Z),
    (forall err, eval exp1 ENV = (Raise err, ENV1) ->
       eval (BinOpNode cls exp1 exp2 sym nm) ENV = (Raise err, ENV1)) /\
    (forall v1, eval exp1 ENV = (Return v1, ENV1) ->
       (forall err ENV2, eval exp2 ENV1 = (Raise err, ENV2) ->
          eval (BinOpNode cls exp1 exp2 sym nm) ENV = (Raise err, ENV2)) /\
       (forall v2 ENV2, eval exp2 ENV1 = (Return v2, ENV2) ->
          eval (BinOpNode cls exp1 exp2 sym nm) ENV
          = (BinOp_apply cls v1 v2, ENV2)))) /\
  (forall ENV : gmap string Z,
    Assign (Var "x") (IntConst 1) = Return (AssignNode "x" (IntConst 1)) /\
    eval (Plus (AssignNode "x" (IntConst 1)) (Var "x")) ENV
    = (Return 2, <["x"%string := 1]> ENV)).
Proof.
  split.
  - intros cls exp1 exp2 sym nm ENV ENV1. split.
    + intros err H1. now apply eval_BinOpNode_Raise_left.
    + intros v1 H1. split.
      * intros err ENV2 H2. now apply eval_BinOpNode_Raise_right with v1 ENV1.
      * intros v2 ENV2 H2. now apply eval_BinOpNode_Return with ENV1.
  - intros ENV. split; [reflexivity|apply Plus_Assign_then_Var].
Qed.

Lemma BinOp_eval_left_to_right_witness :
  eval (AssignNode "x" (IntConst 1)) ∅ = (Return 1, {[ "x"%string := 1 ]}) /\
  eval (Var "x") {[ "x"%string := 1 ]} = (Return 1, {[ "x"%string := 1 ]}) /\
  eval (Plus (AssignNode "x" (IntConst 1)) (Var "x")) ∅
  = (Return 2, {[ "x"%string := 1 ]}).
Proof.
  split; [reflexivity|]. split; [reflexivity|].
  destruct (proj1 BinOp_eval_left_to_right PlusCls (AssignNode "x" (IntConst 1))
              (Var "x") "+"%string "Plus"%string ∅ {[ "x"%string := 1 ]})
    as [_ Hleft].
  destruct (Hleft 1 eq_refl) as [_ Hright].
  apply (Hright 1 {[ "x"%string := 1 ]}). reflexivity.
Defined.

(** * Further properties of the module *)

(** ** What evaluation does to the environment *)

(** Evaluation only adds or overwrites bindings. *)
Lemma eval_keeps_bound e :
  forall (ENV : gmap string Z) x,
    is_Some (ENV !! x) -> is_Some ((eval e ENV).2 !! x).
Proof.
  induction e as [value|cls e1 IH1 e2 IH2 sym nm|cls e IH sym nm|name|y e IH];
    simpl; intros ENV x Hx.
  - exact Hx.
  - unfold bind. specialize (IH1 ENV x Hx).
    destruct (eval e1 ENV) as [[v1|err] ENV1]; simpl in IH1; [|exact IH1].
    specialize (IH2 ENV1 x IH1).
    destruct (eval e2 ENV1) as [[v2|err] ENV2]; simpl in IH2; exact IH2.
  - unfold bind. specialize (IH ENV x Hx).
    destruct (eval e ENV) as [[v|err] ENV1]; simpl in IH; exact IH.
  - unfold Var_eval. destruct (ENV !! name); exact Hx.
  - unfold bind. specialize (IH ENV x Hx).
    destruct (eval e ENV) as [[v|err] ENV1]; simpl in IH; [|exact IH].
    simpl. destruct (decide (y = x)) as [->|Hne].
    + rewrite lookup_insert_eq. eauto.
    + now rewrite lookup_insert_ne.
Qed.

(** X1.  Evaluating a tree with no [Assign] node never changes [ENV],
    whether the evaluation returns or raises. *)
Theorem eval_without_Assign_keeps_ENV e (ENV ENV' : gmap string Z) o :
  assign_free e = true ->
  eval e ENV = (o, ENV') ->
  ENV' = ENV.
Proof.
  intros Hfree He. pose proof (eval_assign_free e Hfree ENV) as Henv.
  rewrite He in Henv. exact Henv.
Qed.

Lemma eval_without_Assign_keeps_ENV_witness :
  assign_free (Div (Var "a") (IntConst 0)) = true /\
  eval (Div (Var "a") (IntConst 0)) {[ "a"%string := 5 ]}
  = (Raise ZeroDivisionError, {[ "a"%string := 5 ]}) /\
  ({[ "a"%string := 5 ]} : gmap string Z) = {[ "a"%string := 5 ]}.
Proof.
  split; [reflexivity|]. split; [reflexivity|].
  apply (eval_without_Assign_keeps_ENV (Div (Var "a") (IntConst 0))
           {[ "a"%string := 5 ]} {[ "a"%string := 5 ]} (Raise ZeroDivisionError));
    reflexivity.
Defined.

(** X2.  Evaluation never unbinds a variable: a name bound before a tree
    is evaluated is still bound afterwards, whether the evaluation returns
    or raises. *)
Theorem eval_never_unbinds e (ENV ENV' : gmap string Z) o x :
  eval e ENV = (o, ENV') ->
  is_Some (ENV !! x) ->
  is_Some (ENV' !! x).
Proof.
  intros He Hx. pose proof (eval_keeps_bound e ENV x Hx) as Hkeep.
  rewrite He in Hkeep. exact Hkeep.
Qed.

Lemma eval_never_unbinds_witness :
  eval (AssignNode "b" (Var "a")) {[ "a"%string := 5 ]}
  = (Return 5, <["b"%string := 5]> {[ "a"%string := 5 ]}) /\
  is_Some ((<["b"%string := 5]> {[ "a"%string := 5 ]} : gmap string Z) !! "a"%string).
Proof.
  split; [reflexivity|].
  apply (eval_never_unbinds (AssignNode "b" (Var "a")) {[ "a"%string := 5 ]}
           (<["b"%string := 5]> {[ "a"%string := 5 ]}) (Return 5) "a");
    [reflexivity|].
  exists 5. reflexivity.
Defined.

(** X3.  A variable that no [Assign] node of the tree names keeps the
    binding, or the lack of one, it had before the evaluation. *)
Theorem eval_frame e :
  forall (ENV ENV' : gmap string Z) o x,
    x ∉ targets e ->
    eval e ENV = (o, ENV') ->
    ENV' !! x = ENV !! x.
Proof.
  induction e as [value|cls e1 IH1 e2 IH2 sym nm|cls e IH sym nm|name|y e IH];
    simpl; intros ENV ENV' o x Hx He.
  - now inversion He.
  - apply not_elem_of_app in Hx as [Hx1 Hx2]. unfold bind in He.
    destruct (eval e1 ENV) as [[v1|err] ENV1] eqn:H1.
    + destruct (eval e2 ENV1) as [[v2|err] ENV2] eqn:H2.
      * inversion He; subst.
        rewrite (IH2 _ _ _ _ Hx2 H2). exact (IH1 _ _ _ _ Hx1 H1).
      * inversion He; subst.
        rewrite (IH2 _ _ _ _ Hx2 H2). exact (IH1 _ _ _ _ Hx1 H1).
    + inversion He; subst. exact (IH1 _ _ _ _ Hx1 H1).
  - unfold bind in He.
    destruct (eval e ENV) as [[v|err] ENV1] eqn:H1; inversion He; subst;
      exact (IH _ _ _ _ Hx H1).
  - unfold Var_eval in He. destruct (ENV !! name); now inversion He.
  - apply not_elem_of_cons in Hx as [Hne Hx]. unfold bind in He.
    destruct (eval e ENV) as [[v|err] ENV1] eqn:H1; inversion He; subst.
    + rewrite lookup_insert_ne by congruence. exact (IH _ _ _ _ Hx H1).
    + exact (IH _ _ _ _ Hx H1).
Qed.

Lemma eval_frame_witness :
("a"%string ∉ targets (AssignNode "b" (Plus (Var "a") (IntConst 1)))) /\
  eval (AssignNode "b" (Plus (Var "a") (IntConst 1))) {[ "a"%string := 5 ]}
  = (Return 6, <["b"%string := 6]> {[ "a"%string := 5 ]}) /\
  (<["b"%string := 6]> {[ "a"%string := 5 ]} : gmap string Z) !! "a"%string
  = ({[ "a"%string := 5 ]} : gmap string Z) !! "a"%string.
Proof.
  assert (Hnot : "a"%string ∉ targets (AssignNode "b" (Plus (Var "a") (IntConst 1)))).
  { simpl. intros Hin. apply list_elem_of_singleton in Hin. discriminate Hin. }
  split; [exact Hnot|]. split; [reflexivity|].
  apply (eval_frame (AssignNode "b" (Plus (Var "a") (IntConst 1)))
           {[ "a"%string := 5 ]} (<["b"%string := 6]> {[ "a"%string := 5 ]})
           (Return 6) "a" Hnot).
  reflexivity.
Defined.

(** Once evaluation returns, every node of the tree has been evaluated:
    its targets were bound and its variables were read. *)
Lemma eval_Return_bound e :
  forall (ENV ENV' : gmap string Z) v,
    eval e ENV = (Return v, ENV') ->
    forall x, x ∈ targets e ++ vars e -> is_Some (ENV' !! x).
Proof.
  induction e as [value|cls e1 IH1 e2 IH2 sym nm|cls e IH sym nm|name|y e IH];
    simpl; intros ENV ENV' v He x Hx.
  - now apply elem_of_nil in Hx.
  - unfold bind in He.
    destruct (eval e1 ENV) as [[v1|err] ENV1] eqn:H1; [|discriminate He].
    destruct (eval e2 ENV1) as [[v2|err] ENV2] eqn:H2; [|discriminate He].
    inversion He; subst ENV2.
    assert (Hx' : x ∈ targets e1 ++ vars e1 \/ x ∈ targets e2 ++ vars e2).
    { rewrite !elem_of_app in Hx. rewrite !elem_of_app. tauto. }
    destruct Hx' as [Hx1|Hx2].
    + pose proof (eval_keeps_bound e2 ENV1 x (IH1 _ _ _ H1 x Hx1)) as Hkeep.
      rewrite H2 in Hkeep. exact Hkeep.
    + exact (IH2 _ _ _ H2 x Hx2).
  - unfold bind in He.
    destruct (eval e ENV) as [[v1|err] ENV1] eqn:H1; [|discriminate He].
    inversion He; subst. exact (IH _ _ _ H1 x Hx).
  - apply list_elem_of_singleton in Hx as ->.
    unfold Var_eval in He. destruct (ENV !! name) as [w|] eqn:Hw;
      [|discriminate He].
    inversion He; subst. rewrite Hw. eauto.
  - unfold bind in He.
    destruct (eval e ENV) as [[v1|err] ENV1] eqn:H1; [|discriminate He].
    inversion He; subst.
    apply elem_of_cons in Hx as [->|Hx].
    + rewrite lookup_insert_eq. eauto.
    + destruct (decide (y = x)) as [->|Hne].
      * rewrite lookup_insert_eq. eauto.
      * rewrite lookup_insert_ne by exact Hne. exact (IH _ _ _ H1 x Hx).
Qed.

(** X4.  When the evaluation of a tree returns, every variable named by
    an [Assign] node of the tree is bound, and so is every variable read by
    a [Var] node of it. *)
Theorem eval_Return_binds_targets_and_vars e (ENV ENV' : gmap string Z) v x :
  eval e ENV = (Return v, ENV') ->
  x ∈ targets e \/ x ∈ vars e ->
  is_Some (ENV' !! x).
Proof.
  intros He Hx. apply (eval_Return_bound e ENV ENV' v He).
  rewrite elem_of_app. exact Hx.
Qed.

Lemma eval_Return_binds_targets_and_vars_witness :
  eval (Plus (AssignNode "x" (IntConst 1)) (AssignNode "y" (Var "x"))) ∅
  = (Return 2, <["y"%string := 1]> {[ "x"%string := 1 ]}) /\
  is_Some ((<["y"%string := 1]> {[ "x"%string := 1 ]} : gmap string Z) !! "y"%string).
Proof.
  split; [reflexivity|].
  apply (eval_Return_binds_targets_and_vars
           (Plus (AssignNode "x" (IntConst 1)) (AssignNode "y" (Var "x")))
           ∅ (<["y"%string := 1]> {[ "x"%string := 1 ]}) 2 "y");
    [reflexivity|].
  left. simpl. apply list_elem_of_In. simpl. tauto.
Defined.

(** With no [Assign] in the tree, a variable the tree mentions and the
    environment lacks makes the evaluation raise. *)
Lemma eval_assign_free_unbound e (ENV : gmap string Z) x :
  assign_free e = true ->
  x ∈ vars e ->
  ENV !! x = None ->
  exists err, eval e ENV = (Raise err, ENV).
Proof.
  intros Hfree Hx Hunbound.
  destruct (eval e ENV) as [[v|err] ENV'] eqn:He.
  - assert (ENV' = ENV) as ->.
    { pose proof (eval_assign_free e Hfree ENV) as Henv.
      rewrite He in Henv. exact Henv. }
    assert (Hb : is_Some (ENV !! x)).
    { apply (eval_Return_bound e ENV ENV v He). rewrite elem_of_app. now right. }
    rewrite Hunbound in Hb. destruct Hb as [w Hw]. discriminate Hw.
  - exists err. f_equal.
    pose proof (eval_assign_free e Hfree ENV) as Henv.
    rewrite He in Henv. exact Henv.
Qed.

(** X5.  A tree with no [Assign] node evaluates successfully only if every
    variable it mentions is already bound: with one of them unbound the
    evaluation raises, and the environment is unchanged. *)
Theorem eval_unbound_var_raises e (ENV : gmap string Z) x :
  assign_free e = true ->
  x ∈ vars e ->
  ENV !! x = None ->
  (exists err, eval e ENV = (Raise err, ENV)) /\
  (forall v ENV', eval e ENV <> (Return v, ENV')).
Proof.
  intros Hfree Hx Hunbound.
  destruct (eval_assign_free_unbound e ENV x Hfree Hx Hunbound) as [err Herr].
  split; [now exists err|].
  intros v ENV' He. rewrite Herr in He. discriminate He.
Qed.

Lemma eval_unbound_var_raises_witness :
  assign_free (Times (Var "a") (Var "b")) = true /\
  ("b"%string ∈ vars (Times (Var "a") (Var "b"))) /\
  ({[ "a"%string := 2 ]} : gmap string Z) !! "b"%string = None /\
  exists err,
    eval (Times (Var "a") (Var "b")) {[ "a"%string := 2 ]}
    = (Raise err, {[ "a"%string := 2 ]}).
Proof.
  assert (Hin : "b"%string ∈ vars (Times (Var "a") (Var "b"))).
  { simpl. apply list_elem_of_In. simpl. tauto. }
  split; [reflexivity|]. split; [exact Hin|]. split; [reflexivity|].
  apply (eval_unbound_var_raises (Times (Var "a") (Var "b"))
           {[ "a"%string := 2 ]} "b"); [reflexivity|exact Hin|reflexivity].
Defined.

(** X6.  After [env_clear()], whatever was bound before, every tree with
    no [Assign] node that mentions a variable raises when evaluated, and the
    environment stays empty. *)
Theorem env_clear_forgets_all_bindings e (ENV : gmap string Z) :
  assign_free e = true ->
  vars e <> [] ->
  exists err, (let* _ := env_clear in eval e) ENV = (Raise err, ∅).
Proof.
  intros Hfree Hvars.
  destruct (vars e) as [|x l] eqn:Hl; [contradiction|].
  unfold bind, env_clear.
  apply (eval_assign_free_unbound e ∅ x Hfree).
  - rewrite Hl. apply list_elem_of_here.
  - apply lookup_empty.
Qed.

Lemma env_clear_forgets_all_bindings_witness :
  assign_free (Neg (Var "a")) = true /\
  vars (Neg (Var "a")) <> [] /\
  exists err,
    (let* _ := env_clear in eval (Neg (Var "a"))) {[ "a"%string := 2 ]}
    = (Raise err, ∅).
Proof.
  split; [reflexivity|]. split; [discriminate|].
  apply (env_clear_forgets_all_bindings (Neg (Var "a")) {[ "a"%string := 2 ]});
    [reflexivity|discriminate].
Defined.

(** ** Which exceptions evaluation raises *)

(** An exception leaving [eval] is either the [ZeroDivisionError] of a
    [Div] node or the [AttributeError] of a [Var] node. *)
Lemma eval_Raise_kinds e :
  forall (ENV ENV' : gmap string Z) err,
    eval e ENV = (Raise err, ENV') ->
    (err = ZeroDivisionError /\ div_free e = false) \/
    (err = AttributeError "Name" /\ var_free e = false).
Proof.
  induction e as [value|cls e1 IH1 e2 IH2 sym nm|cls e IH sym nm|name|y e IH];
    simpl; intros ENV ENV' err He.
  - discriminate He.
  - unfold bind in He.
    destruct (eval e1 ENV) as [[v1|err1] ENV1] eqn:H1.
    + destruct (eval e2 ENV1) as [[v2|err2] ENV2] eqn:H2.
      * left. destruct cls; try discriminate He.
        unfold lift in He. simpl in He. unfold floordiv in He.
        destruct (v2 =? 0); inversion He. now split.
      * inversion He; subst.
        destruct (IH2 _ _ _ H2) as [[-> Hd]|[-> Hv]].
        -- left. split; [reflexivity|]. rewrite Hd.
           destruct cls; auto using andb_false_r.
        -- right. split; [reflexivity|]. rewrite Hv. apply andb_false_r.
    + inversion He; subst.
      destruct (IH1 _ _ _ H1) as [[-> Hd]|[-> Hv]].
      * left. split; [reflexivity|]. rewrite Hd. now destruct cls.
      * right. split; [reflexivity|]. now rewrite Hv.
  - unfold bind in He.
    destruct (eval e ENV) as [[v1|err1] ENV1] eqn:H1; [discriminate He|].
    inversion He; subst. exact (IH _ _ _ H1).
  - right. unfold Var_eval in He.
    destruct (ENV !! name); [discriminate He|].
    inversion He. now split.
  - unfold bind in He.
    destruct (eval e ENV) as [[v1|err1] ENV1] eqn:H1; [discriminate He|].
    inversion He; subst. exact (IH _ _ _ H1).
Qed.

(** X7.  The only exceptions [eval] raises are [ZeroDivisionError] and the
    [AttributeError] for [Name]; it never raises [UndefinedVariable],
    [NotImplementedError] or [AssertionError]. *)
Theorem eval_raises_only_two_kinds e (ENV ENV' : gmap string Z) err :
  eval e ENV = (Raise err, ENV') ->
  err = ZeroDivisionError \/ err = AttributeError "Name".
Proof.
  intros He. destruct (eval_Raise_kinds e ENV ENV' err He) as [[-> _]|[-> _]];
    [now left|now right].
Qed.

Lemma eval_raises_only_two_kinds_witness :
  eval (Plus (IntConst 1) (Neg (Var "z"))) ∅ = (Raise (AttributeError "Name"), ∅) /\
  (AttributeError "Name" = ZeroDivisionError \/
   AttributeError "Name" = AttributeError "Name").
Proof.
  split; [reflexivity|].
  apply (eval_raises_only_two_kinds (Plus (IntConst 1) (Neg (Var "z"))) ∅ ∅).
  reflexivity.
Defined.

(** X8.  A [ZeroDivisionError] can only come out of a tree that has a
    [Div] node, and an [AttributeError] only out of one that has a [Var]
    node: a tree without [Div] raises nothing but [AttributeError], a tree
    without [Var] nothing but [ZeroDivisionError]. *)
Theorem eval_exception_has_a_source e (ENV ENV' : gmap string Z) err :
  eval e ENV = (Raise err, ENV') ->
  (div_free e = true -> err = AttributeError "Name" /\ var_free e = false) /\
  (var_free e = true -> err = ZeroDivisionError /\ div_free e = false).
Proof.
  intros He.
  destruct (eval_Raise_kinds e ENV ENV' err He) as [[-> Hd]|[-> Hv]]; split;
    intros Hfree; try (rewrite Hfree in *; discriminate); now split.
Qed.

Lemma eval_exception_has_a_source_witness :
  eval (Minus (IntConst 1) (Div (IntConst 4) (IntConst 0))) ∅
  = (Raise ZeroDivisionError, ∅) /\
  var_free (Minus (IntConst 1) (Div (IntConst 4) (IntConst 0))) = true /\
  div_free (Minus (IntConst 1) (Div (IntConst 4) (IntConst 0))) = false.
Proof.
  split; [reflexivity|]. split; [reflexivity|].
  apply (eval_exception_has_a_source
           (Minus (IntConst 1) (Div (IntConst 4) (IntConst 0))) ∅ ∅
           ZeroDivisionError); reflexivity.
Defined.

(** The outcome of a tree without variables does not depend on the
    environment it is evaluated in. *)
Lemma eval_var_free_outcome e :
  var_free e = true ->
  forall ENV1 ENV2 : gmap string Z, (eval e ENV1).1 = (eval e ENV2).1.
Proof.
  induction e as [value|cls e1 IH1 e2 IH2 sym nm|cls e IH sym nm|name|y e IH];
    simpl; intros Hfree ENV1 ENV2.
  - reflexivity.
  - apply andb_prop in Hfree as [Hf1 Hf2]. unfold bind.
    specialize (IH1 Hf1 ENV1 ENV2).
    destruct (eval e1 ENV1) as [[v1|err1] E1], (eval e1 ENV2) as [[w1|err1'] F1];
      simpl in IH1; try discriminate IH1; [|exact IH1].
    inversion IH1; subst w1.
    specialize (IH2 Hf2 E1 F1).
    destruct (eval e2 E1) as [[v2|err2] E2], (eval e2 F1) as [[w2|err2'] F2];
      simpl in IH2; try discriminate IH2; [|exact IH2].
    inversion IH2; subst w2. reflexivity.
  - unfold bind. specialize (IH Hfree ENV1 ENV2).
    destruct (eval e ENV1) as [[v1|err1] E1], (eval e ENV2) as [[w1|err1'] F1];
      simpl in IH; try discriminate IH; [|exact IH].
    inversion IH; subst w1. reflexivity.
  - discriminate Hfree.
  - unfold bind. specialize (IH Hfree ENV1 ENV2).
    destruct (eval e ENV1) as [[v1|err1] E1], (eval e ENV2) as [[w1|err1'] F1];
      simpl in IH; try discriminate IH; [|exact IH].
    inversion IH; subst w1. reflexivity.
Qed.

(** X9.  A tree with no [Var] and no [Div] node always evaluates
    successfully, and to the same value in every environment. *)
Theorem eval_constant_tree_returns e :
  var_free e = true ->
  div_free e = true ->
  exists v, forall ENV : gmap string Z, (eval e ENV).1 = Return v.
Proof.
  intros Hv Hd.
  destruct (eval e ∅) as [[v|err] ENV'] eqn:He.
  - exists v. intros ENV. rewrite (eval_var_free_outcome e Hv ENV ∅).
    now rewrite He.
  - destruct (eval_Raise_kinds e ∅ ENV' err He) as [[_ Hd']|[_ Hv']];
      congruence.
Qed.

Lemma eval_constant_tree_returns_witness :
  var_free (AssignNode "x" (Times (IntConst 3) (Abs (IntConst (-2))))) = true /\
  div_free (AssignNode "x" (Times (IntConst 3) (Abs (IntConst (-2))))) = true /\
  exists v, forall ENV : gmap string Z,
      (eval (AssignNode "x" (Times (IntConst 3) (Abs (IntConst (-2))))) ENV).1
      = Return v.
Proof.
  split; [reflexivity|]. split; [reflexivity|].
  apply (eval_constant_tree_returns
           (AssignNode "x" (Times (IntConst 3) (Abs (IntConst (-2))))));
    reflexivity.
Defined.

(** ** Unary operators on arbitrary operands *)

(** X10.  Whatever the operand does (return, raise, bind variables), two
    negations cancel, a second [Abs] changes nothing, [Abs] absorbs a
    [Neg] below it, and a value returned by [Abs] is never negative. *)
Theorem Neg_Abs_laws e (ENV : gmap string Z) :
  eval (Neg (Neg e)) ENV = eval e ENV /\
  eval (Abs (Abs e)) ENV = eval (Abs e) ENV /\
  eval (Abs (Neg e)) ENV = eval (Abs e) ENV /\
  (forall v ENV', eval (Abs e) ENV = (Return v, ENV') -> 0 <= v).
Proof.
  simpl. unfold bind, ret.
  destruct (eval e ENV) as [[v|err] ENV1]; simpl.
  - rewrite Z.opp_involutive, Z.abs_opp, (Z.abs_eq (Z.abs v)) by apply Z.abs_nonneg.
    repeat split. intros w ENV' [= <- _]. apply Z.abs_nonneg.
  - repeat split. intros w ENV' Hw. discriminate Hw.
Qed.

Lemma Neg_Abs_laws_witness :
  eval (Abs (AssignNode "x" (IntConst (-3)))) ∅ = (Return 3, {[ "x"%string := -3 ]}) /\
  0 <= 3.
Proof.
  split; [reflexivity|].
  destruct (Neg_Abs_laws (AssignNode "x" (IntConst (-3))) ∅) as (_ & _ & _ & Hnn).
  apply (Hnn 3 {[ "x"%string := -3 ]}). reflexivity.
Defined.

(** ** Chained assignment *)

(** X11.  An assignment returns the value it binds, so it can be the
    right-hand side of another one: [Assign(x, Assign(y, e))] binds both
    variables to the value of [e] and returns it. *)
Theorem Assign_chain x y e (ENV ENV1 : gmap string Z) v :
  eval e ENV = (Return v, ENV1) ->
  exists ENV2,
    eval (AssignNode x (AssignNode y e)) ENV = (Return v, ENV2) /\
    ENV2 = <[x := v]> (<[y := v]> ENV1) /\
    ENV2 !! x = Some v /\ ENV2 !! y = Some v.
Proof.
  intros He. exists (<[x := v]> (<[y := v]> ENV1)).
  split.
  - apply eval_AssignNode_Return. now apply eval_AssignNode_Return.
  - split; [reflexivity|]. split; [apply lookup_insert_eq|].
    destruct (decide (x = y)) as [->|Hne].
    + apply lookup_insert_eq.
    + rewrite lookup_insert_ne by exact Hne. apply lookup_insert_eq.
Qed.

Lemma Assign_chain_witness :
  eval (Plus (IntConst 2) (IntConst 3)) ∅ = (Return 5, ∅) /\
  exists ENV2,
    eval (AssignNode "x" (AssignNode "y" (Plus (IntConst 2) (IntConst 3)))) ∅
    = (Return 5, ENV2) /\
    ENV2 = <["x"%string := 5]> (<["y"%string := 5]> ∅) /\
    ENV2 !! "x"%string = Some 5 /\ ENV2 !! "y"%string = Some 5.
Proof.
  split; [reflexivity|].
  apply (Assign_chain "x" "y" (Plus (IntConst 2) (IntConst 3)) ∅ ∅ 5).
  reflexivity.
Defined.

(** ** Equality beyond the constant case *)

(** X12.  With a left operand that is not an [IntConst], [==] evaluates
    the left operand, then the right one in the environment the left one
    leaves, and is [True] exactly when the two values are equal. *)
Theorem eq_op_compares_values self other (ENV ENV1 ENV2 : gmap string Z) v1 v2 :
  (forall value, self <> IntConst value) ->
  eval self ENV = (Return v1, ENV1) ->
  eval other ENV1 = (Return v2, ENV2) ->
  exists b, eq_op self other ENV = (Return b, ENV2) /\ (b = true <-> v1 = v2).
Proof.
  intros Hself H1 H2. exists (Z.eqb v1 v2).
  split; [now apply eq_op_non_IntConst with ENV1|apply Z.eqb_eq].
Qed.

Lemma eq_op_compares_values_witness :
  (forall value, Times (IntConst 2) (IntConst 3) <> IntConst value) /\
  eval (Times (IntConst 2) (IntConst 3)) ∅ = (Return 6, ∅) /\
  eval (Abs (IntConst (-6))) ∅ = (Return 6, ∅) /\
  exists b, eq_op (Times (IntConst 2) (IntConst 3)) (Abs (IntConst (-6))) ∅
            = (Return b, ∅) /\ (b = true <-> 6 = 6).
Proof.
  assert (Hne : forall value, Times (IntConst 2) (IntConst 3) <> IntConst value)
    by (intros value; discriminate).
  split; [exact Hne|]. split; [reflexivity|]. split; [reflexivity|].
  apply (eq_op_compares_values (Times (IntConst 2) (IntConst 3))
           (Abs (IntConst (-6))) ∅ ∅ ∅ 6 6 Hne); reflexivity.
Defined.

(** X13.  With an [IntConst] on the left and any other kind of node on the
    right, [==] raises [AttributeError] for [value] without evaluating the
    right operand: the environment is untouched even if that operand
    contains assignments. *)
Theorem eq_op_IntConst_left_raises a other (ENV : gmap string Z) :
  (forall value, other <> IntConst value) ->
  eq_op (IntConst a) other ENV = (Raise (AttributeError "value"), ENV).
Proof. intros Hother. now apply eq_op_IntConst_other. Qed.

Lemma eq_op_IntConst_left_raises_witness :
  (forall value, AssignNode "x" (IntConst 4) <> IntConst value) /\
  eq_op (IntConst 4) (AssignNode "x" (IntConst 4)) ∅
  = (Raise (AttributeError "value"), ∅).
Proof.
  assert (Hne : forall value, AssignNode "x" (IntConst 4) <> IntConst value)
    by (intros value; discriminate).
  split; [exact Hne|].
  apply (eq_op_IntConst_left_raises 4 (AssignNode "x" (IntConst 4)) ∅ Hne).
Defined.

(** X14.  On trees with no [Assign] node that evaluate successfully, [==]
    is reflexive, and between two that are not [IntConst]s it is symmetric;
    neither comparison changes the environment. *)
Theorem eq_op_reflexive_symmetric a b (ENV ENVa ENVb : gmap string Z) va vb :
  assign_free a = true ->
  assign_free b = true ->
  eval a ENV = (Return va, ENVa) ->
  eval b ENV = (Return vb, ENVb) ->
  eq_op a a ENV = (Return true, ENV) /\
  ((forall value, a <> IntConst value) ->
   (forall value, b <> IntConst value) ->
   eq_op a b ENV = (Return (Z.eqb va vb), ENV) /\
   eq_op b a ENV = eq_op a b ENV).
Proof.
  intros Hfa Hfb Ha Hb.
  assert (ENVa = ENV) as ->.
  { pose proof (eval_assign_free a Hfa ENV) as H. now rewrite Ha in H. }
  assert (ENVb = ENV) as ->.
  { pose proof (eval_assign_free b Hfb ENV) as H. now rewrite Hb in H. }
  split.
  - destruct a as [value| | | |]; unfold eq_op;
      try (rewrite (Expr_eq_values _ _ ENV ENV ENV va va Ha Ha);
           now rewrite Z.eqb_refl).
    unfold lift. simpl. now rewrite Z.eqb_refl.
  - intros Hna Hnb.
    rewrite (eq_op_non_IntConst a b ENV ENV ENV va vb Hna Ha Hb).
    rewrite (eq_op_non_IntConst b a ENV ENV ENV vb va Hnb Hb Ha).
    split; [reflexivity|]. now rewrite Z.eqb_sym.
Qed.

Lemma eq_op_reflexive_symmetric_witness :
  eq_op (Var "a") (Var "a") {[ "a"%string := 2 ]}
  = (Return true, {[ "a"%string := 2 ]}).
Proof.
  apply (eq_op_reflexive_symmetric (Var "a") (Plus (IntConst 1) (IntConst 1))
           {[ "a"%string := 2 ]} {[ "a"%string := 2 ]} {[ "a"%string := 2 ]} 2 2);
    reflexivity.
Defined.

(** ** Addition of constants *)

(** X15.  [IntConst(a) + IntConst(b)] builds the constant that
    [Plus(IntConst(a), IntConst(b))] evaluates to, and the two compare
    equal; with anything but an [IntConst] on the right the addition raises
    [AttributeError] for [value]. *)
Theorem IntConst_add_agrees_with_Plus :
  (forall a b (ENV : gmap string Z),
      exists c,
        IntConst_add a (IntConst b) = Return c /\
        eval c ENV = eval (Plus (IntConst a) (IntConst b)) ENV /\
        eq_op (Plus (IntConst a) (IntConst b)) c ENV = (Return true, ENV) /\
        eq_op c (Plus (IntConst a) (IntConst b)) ENV
        = (Raise (AttributeError "value"), ENV)) /\
  (forall a other,
      (forall value, other <> IntConst value) ->
      IntConst_add a other = Raise (AttributeError "value")).
Proof.
  split.
  - intros a b ENV. exists (IntConst (a + b)).
    split; [reflexivity|]. split; [reflexivity|]. split; [|reflexivity].
    cbn. unfold bind, ret, lift. cbn. now rewrite Z.eqb_refl.
  - intros a other Hother. destruct other as [value| | | |]; try reflexivity.
    now destruct (Hother value).
Qed.

Lemma IntConst_add_agrees_with_Plus_witness :
  (forall value, Var "x" <> IntConst value) /\
  IntConst_add 1 (Var "x") = Raise (AttributeError "value").
Proof.
  assert (Hne : forall value, Var "x" <> IntConst value)
    by (intros value; discriminate).
  split; [exact Hne|].
  apply (proj2 IntConst_add_agrees_with_Plus 1 (Var "x") Hne).
Defined.

(** ** Parentheses in the texts *)

Lemma count_char_app c s1 s2 :
  count_char c (s1 +:+ s2) = (count_char c s1 + count_char c s2)%nat.
Proof.
  induction s1 as [|a s1 IH]; simpl; [reflexivity|]. rewrite IH. lia.
Qed.

(** A decimal numeral has digits and perhaps a minus sign, no parenthesis. *)
Lemma count_char_string_of_uint c d :
  c = "("%char \/ c = ")"%char ->
  count_char c (NilEmpty.string_of_uint d) = O.
Proof.
  intros [-> | ->]; induction d; simpl; auto.
Qed.

Lemma count_char_str_int c n :
  c = "("%char \/ c = ")"%char ->
  count_char c (str_int n) = O.
Proof.
  intros Hc. unfold str_int.
  assert (Hu : forall d, count_char c (NilZero.string_of_uint d) = O).
  { intros d. pose proof (count_char_string_of_uint c d Hc) as Hd.
    destruct d; try exact Hd. destruct Hc as [-> | ->]; reflexivity. }
  destruct (Z.to_int n) as [d|d]; simpl; [apply Hu|].
  rewrite Hu. destruct Hc as [-> | ->]; reflexivity.
Qed.

Lemma plain_counts name :
  plain name = true ->
  count_char "(" name = O /\ count_char ")" name = O.
Proof.
  unfold plain. intros H. apply andb_prop in H as [H1 H2].
  split; now apply Nat.eqb_eq.
Qed.

Lemma str_parentheses e :
  constructed e = true ->
  plain_names e = true ->
  count_char "(" (str e) = binops e /\ count_char ")" (str e) = binops e.
Proof.
  induction e as [value|cls e1 IH1 e2 IH2 sym nm|cls e IH sym nm|name|y e IH];
    simpl; intros Hc Hp.
  - split; apply count_char_str_int; auto.
  - apply andb_prop in Hc as [Hc Hc2]. apply andb_prop in Hc as [Hc Hc1].
    apply andb_prop in Hc as [Hsym _]. apply String.eqb_eq in Hsym.
    apply andb_prop in Hp as [Hp1 Hp2].
    destruct (IH1 Hc1 Hp1) as [IH1l IH1r], (IH2 Hc2 Hp2) as [IH2l IH2r].
    rewrite !count_char_app, IH1l, IH1r, IH2l, IH2r. subst sym.
    destruct cls; simpl; lia.
  - apply andb_prop in Hc as [Hc Hc1]. apply andb_prop in Hc as [Hsym _].
    apply String.eqb_eq in Hsym.
    destruct (IH Hc1 Hp) as [IHl IHr].
    rewrite !count_char_app, IHl, IHr. subst sym.
    destruct cls; simpl; lia.
  - now apply plain_counts.
  - apply andb_prop in Hp as [Hy Hp]. destruct (plain_counts y Hy) as [Hyl Hyr].
    destruct (IH Hc Hp) as [IHl IHr].
    rewrite !count_char_app, Hyl, Hyr, IHl, IHr. simpl. lia.
Qed.

Lemma repr_parentheses e :
  constructed e = true ->
  plain_names e = true ->
  count_char "(" (repr e) = objects e /\ count_char ")" (repr e) = objects e.
Proof.
  induction e as [value|cls e1 IH1 e2 IH2 sym nm|cls e IH sym nm|name|y e IH];
    simpl; intros Hc Hp.
  - rewrite !count_char_app, !count_char_str_int by auto. split; reflexivity.
  - apply andb_prop in Hc as [Hc Hc2]. apply andb_prop in Hc as [Hc Hc1].
    apply andb_prop in Hc as [_ Hnm]. apply String.eqb_eq in Hnm.
    apply andb_prop in Hp as [Hp1 Hp2].
    destruct (IH1 Hc1 Hp1) as [IH1l IH1r], (IH2 Hc2 Hp2) as [IH2l IH2r].
    rewrite !count_char_app, IH1l, IH1r, IH2l, IH2r. subst nm.
    destruct cls; simpl; lia.
  - apply andb_prop in Hc as [Hc Hc1]. apply andb_prop in Hc as [_ Hnm].
    apply String.eqb_eq in Hnm.
    destruct (IH Hc1 Hp) as [IHl IHr].
    rewrite !count_char_app, IHl, IHr. subst nm.
    destruct cls; simpl; lia.
  - destruct (plain_counts name Hp) as [Hl Hr]. unfold Var_repr.
    rewrite !count_char_app, Hl, Hr. split; reflexivity.
  - apply andb_prop in Hp as [Hy Hp]. destruct (plain_counts y Hy) as [Hyl Hyr].
    destruct (IH Hc Hp) as [IHl IHr]. unfold Var_repr.
    rewrite !count_char_app, Hyl, Hyr, IHl, IHr. simpl. lia.
Qed.

Lemma scan_app s1 s2 :
  forall depth,
    scan depth (s1 +:+ s2)
    = match scan depth s1 with
      | Some depth' => scan depth' s2
      | None => None
      end.
Proof.
  induction s1 as [|a s1 IH]; intros depth.
  - change (EmptyString +:+ s2) with s2. reflexivity.
  - change (String a s1 +:+ s2) with (String a (s1 +:+ s2)). cbn [scan].
    destruct (Ascii.eqb "(" a); [apply IH|].
    destruct (Ascii.eqb ")" a); [|apply IH].
    destruct depth; [reflexivity|apply IH].
Qed.

(** A text without parentheses leaves the depth as it is. *)
Lemma scan_no_parentheses s :
  count_char "(" s = O -> count_char ")" s = O ->
  forall depth, scan depth s = Some depth.
Proof.
  induction s as [|a s IH]; cbn [scan count_char]; intros Hl Hr depth;
    [reflexivity|].
  destruct (Ascii.eqb "(" a); [discriminate Hl|].
  destruct (Ascii.eqb ")" a); [discriminate Hr|].
  now apply IH.
Qed.

Lemma scan_str_int n depth : scan depth (str_int n) = Some depth.
Proof. apply scan_no_parentheses; apply count_char_str_int; auto. Qed.

Lemma scan_plain name depth : plain name = true -> scan depth name = Some depth.
Proof.
  intros Hp. destruct (plain_counts name Hp) as [Hl Hr].
  now apply scan_no_parentheses.
Qed.

(** Reading a text made of literals and of pieces already known to keep
    the depth. *)
Ltac scan_text :=
  repeat first
    [ rewrite scan_app
    | rewrite scan_str_int
    | match goal with
      | H : forall depth, scan depth ?s = Some depth |- context [scan ?d ?s] =>
          rewrite (H d)
      end
    | progress simpl ].

(** The text of a subtree opens and closes its own parentheses: read at
    any depth, it ends at that depth and never goes below it. *)
Lemma str_scan e :
  constructed e = true ->
  plain_names e = true ->
  forall depth, scan depth (str e) = Some depth.
Proof.
  induction e as [value|cls e1 IH1 e2 IH2 sym nm|cls e IH sym nm|name|y e IH];
    simpl; intros Hc Hp depth.
  - apply scan_str_int.
  - apply andb_prop in Hc as [Hc Hc2]. apply andb_prop in Hc as [Hc Hc1].
    apply andb_prop in Hc as [Hsym _]. apply String.eqb_eq in Hsym.
    apply andb_prop in Hp as [Hp1 Hp2].
    specialize (IH1 Hc1 Hp1). specialize (IH2 Hc2 Hp2). subst sym.
    destruct cls; scan_text; reflexivity.
  - apply andb_prop in Hc as [Hc Hc1]. apply andb_prop in Hc as [Hsym _].
    apply String.eqb_eq in Hsym. specialize (IH Hc1 Hp). subst sym.
    destruct cls; scan_text; reflexivity.
  - now apply scan_plain.
  - apply andb_prop in Hp as [Hy Hp]. specialize (IH Hc Hp).
    pose proof (fun depth => scan_plain y depth Hy) as Hname.
    scan_text; reflexivity.
Qed.

Lemma repr_scan e :
  constructed e = true ->
  plain_names e = true ->
  forall depth, scan depth (repr e) = Some depth.
Proof.
  induction e as [value|cls e1 IH1 e2 IH2 sym nm|cls e IH sym nm|name|y e IH];
    simpl; intros Hc Hp depth.
  - scan_text; reflexivity.
  - apply andb_prop in Hc as [Hc Hc2]. apply andb_prop in Hc as [Hc Hc1].
    apply andb_prop in Hc as [_ Hnm]. apply String.eqb_eq in Hnm.
    apply andb_prop in Hp as [Hp1 Hp2].
    specialize (IH1 Hc1 Hp1). specialize (IH2 Hc2 Hp2). subst nm.
    destruct cls; scan_text; reflexivity.
  - apply andb_prop in Hc as [Hc Hc1]. apply andb_prop in Hc as [_ Hnm].
    apply String.eqb_eq in Hnm. specialize (IH Hc1 Hp). subst nm.
    destruct cls; scan_text; reflexivity.
  - pose proof (fun depth => scan_plain name depth Hp) as Hname.
    unfold Var_repr. scan_text; reflexivity.
  - apply andb_prop in Hp as [Hy Hp]. specialize (IH Hc Hp).
    pose proof (fun depth => scan_plain y depth Hy) as Hname.
    unfold Var_repr. scan_text; reflexivity.
Qed.

(** X16.  In a tree built by the constructors, with no parenthesis in its
    variable names, [__str__] writes exactly one pair of parentheses per
    binary operation, and [__repr__] one pair per object of the tree: both
    texts are balanced, every closing parenthesis matching an earlier
    opening one. *)
Theorem str_repr_parentheses e :
  constructed e = true ->
  plain_names e = true ->
  (count_char "(" (str e) = binops e /\ count_char ")" (str e) = binops e) /\
  (count_char "(" (repr e) = objects e /\ count_char ")" (repr e) = objects e) /\
  balanced (str e) = true /\
  balanced (repr e) = true /\
  (forall depth, scan depth (str e) = Some depth) /\
  (forall depth, scan depth (repr e) = Some depth).
Proof.
  intros Hc Hp.
  split; [now apply str_parentheses|].
  split; [now apply repr_parentheses|].
  unfold balanced. rewrite (str_scan e Hc Hp 0%nat), (repr_scan e Hc Hp 0%nat).
  split; [reflexivity|]. split; [reflexivity|].
  split; [now apply str_scan|now apply repr_scan].
Qed.

Lemma str_repr_parentheses_witness :
  constructed (Times (Neg (IntConst (-3))) (Minus (Var "x") (IntConst 0))) = true /\
  plain_names (Times (Neg (IntConst (-3))) (Minus (Var "x") (IntConst 0))) = true /\
  count_char "(" (str (Times (Neg (IntConst (-3))) (Minus (Var "x") (IntConst 0))))
  = 2%nat /\
  balanced (str (Times (Neg (IntConst (-3))) (Minus (Var "x") (IntConst 0)))) = true /\
  balanced (repr (Times (Neg (IntConst (-3))) (Minus (Var "x") (IntConst 0)))) = true.
Proof.
  split; [reflexivity|]. split; [reflexivity|].
  destruct (str_repr_parentheses
              (Times (Neg (IntConst (-3))) (Minus (Var "x") (IntConst 0))))
    as ((Hopen & _) & _ & Hstr & Hrepr & _); try reflexivity.
  split; [exact Hopen|]. split; [exact Hstr|exact Hrepr].
Defined.

(** [balanced] tells the order of the parentheses, not only their number. *)
Example balanced_needs_order :
  balanced "(a)(b)" = true /\ balanced ")a(" = false /\ balanced "(a" = false /\
  count_char "(" ")a(" = count_char ")" ")a(".
Proof. repeat split. Qed.

(** The constructors build [constructed] trees from [constructed] ones. *)
Lemma constructors_constructed e1 e2 :
  constructed e1 = true -> constructed e2 = true ->
  constructed (Plus e1 e2) = true /\ constructed (Minus e1 e2) = true /\
  constructed (Times e1 e2) = true /\ constructed (Div e1 e2) = true /\
  constructed (Neg e1) = true /\ constructed (Abs e1) = true /\
  (forall x, constructed (AssignNode x e1) = true).
Proof. intros H1 H2. simpl. rewrite H1, H2. repeat split; exact H1. Qed.

(** ** Operand order and round trips *)

(** X17.  When neither operand contains an assignment and both evaluate
    successfully, the order of the operands of [Plus] and of [Times] does
    not matter: value and environment are the same either way. *)
Theorem Plus_Times_commute e1 e2 (ENV ENV1 ENV2 : gmap string Z) v1 v2 :
  assign_free e1 = true ->
  assign_free e2 = true ->
  eval e1 ENV = (Return v1, ENV1) ->
  eval e2 ENV = (Return v2, ENV2) ->
  eval (Plus e1 e2) ENV = (Return (v1 + v2), ENV) /\
  eval (Plus e2 e1) ENV = eval (Plus e1 e2) ENV /\
  eval (Times e1 e2) ENV = (Return (v1 * v2), ENV) /\
  eval (Times e2 e1) ENV = eval (Times e1 e2) ENV.
Proof.
  intros Hf1 Hf2 H1 H2.
  assert (ENV1 = ENV) as ->.
  { pose proof (eval_assign_free e1 Hf1 ENV) as H. now rewrite H1 in H. }
  assert (ENV2 = ENV) as ->.
  { pose proof (eval_assign_free e2 Hf2 ENV) as H. now rewrite H2 in H. }
  unfold Plus, Times, _binop_init.
  rewrite (eval_BinOpNode_Return PlusCls e1 e2 _ _ ENV v1 ENV v2 ENV H1 H2).
  rewrite (eval_BinOpNode_Return PlusCls e2 e1 _ _ ENV v2 ENV v1 ENV H2 H1).
  rewrite (eval_BinOpNode_Return TimesCls e1 e2 _ _ ENV v1 ENV v2 ENV H1 H2).
  rewrite (eval_BinOpNode_Return TimesCls e2 e1 _ _ ENV v2 ENV v1 ENV H2 H1).
  simpl. rewrite (Z.add_comm v2 v1), (Z.mul_comm v2 v1). repeat split.
Qed.

Lemma Plus_Times_commute_witness :
  eval (Plus (Var "a") (Neg (IntConst 3))) {[ "a"%string := 2 ]}
  = (Return (-1), {[ "a"%string := 2 ]}) /\
  eval (Plus (Neg (IntConst 3)) (Var "a")) {[ "a"%string := 2 ]}
  = eval (Plus (Var "a") (Neg (IntConst 3))) {[ "a"%string := 2 ]}.
Proof.
  destruct (Plus_Times_commute (Var "a") (Neg (IntConst 3))
              {[ "a"%string := 2 ]} {[ "a"%string := 2 ]} {[ "a"%string := 2 ]}
              2 (-3)) as (Hv & Hc & _); try reflexivity.
  split; [exact Hv|exact Hc].
Defined.

(** With an assignment among the operands the order does matter. *)
Example Plus_order_matters :
  eval (Plus (AssignNode "x" (IntConst 1)) (Var "x")) ∅
  = (Return 2, {[ "x"%string := 1 ]}) /\
  eval (Plus (Var "x") (AssignNode "x" (IntConst 1))) ∅
  = (Raise (AttributeError "Name"), ∅).
Proof. split; reflexivity. Qed.

(** X18.  Subtracting what was added, and dividing by a non-zero constant
    what was multiplied by it, give back the outcome of the operand
    itself: same value or exception, same environment. *)
Theorem Plus_Minus_Times_Div_round_trip e k (ENV : gmap string Z) :
  eval (Minus (Plus e (IntConst k)) (IntConst k)) ENV = eval e ENV /\
  (k <> 0 -> eval (Div (Times e (IntConst k)) (IntConst k)) ENV = eval e ENV).
Proof.
  simpl. unfold bind, ret, lift.
  destruct (eval e ENV) as [[v|err] ENV1]; simpl.
  - split.
    + do 2 f_equal. lia.
    + intros Hk. unfold floordiv.
      destruct (Z.eqb_spec k 0) as [->|_]; [contradiction|].
      now rewrite Z.div_mul.
  - split; reflexivity.
Qed.

Lemma Plus_Minus_Times_Div_round_trip_witness :
  (-4) <> 0 /\
  eval (Div (Times (Var "a") (IntConst (-4))) (IntConst (-4))) {[ "a"%string := 7 ]}
  = eval (Var "a") {[ "a"%string := 7 ]}.
Proof.
  split; [lia|].
  apply (proj2 (Plus_Minus_Times_Div_round_trip (Var "a") (-4) {[ "a"%string := 7 ]})).
  lia.
Defined.
